(** * transcription_app: grouping, transcription and presentation steps

    A shallow embedding of [homework3.py].  The two pre-trained models are
    external capabilities and enter as arguments; what is verified is the
    code of the script itself: the grouping of tagged spans into three
    buckets, their deduplication, the value returned by the transcription
    step and the render pass of [main]. *)

From Stdlib Require Import Floats.SpecFloat.
From stdpp Require Import gmap strings list fin_maps.

#[local] Set Warnings "-clear-no-such-hyp".

Local Open Scope string_scope.
Local Open Scope list_scope.

(** ** Python values used by the script *)

(** [list(set(xs))]: a Python set iterates in an order fixed by the string
    hashes and the insertion history, neither of which the script controls.
    All the language promises is that the listing has no repetition and has
    the members of [xs].  The order is left to an implementation. *)
Class SetOrder := {
  list_of_set : list string → list string;
  list_of_set_NoDup : ∀ xs, NoDup (list_of_set xs);
  list_of_set_elem : ∀ xs x, x ∈ list_of_set xs ↔ x ∈ xs;
}.

(** A Python float: a binary64 value, mantissa and exponent spelled out. *)
Abbreviation float := spec_float.

(** One element of the list the token-classification pipeline returns under
    [aggregation_strategy="simple"]. *)
Record entity := {
  entity_group : string;
  score : float;
  word : string;
  start : option Z;
  end_ : option Z;
}.

(** The loaded pipeline, called on the text. *)
Definition token_classifier := string → list entity.

(** A dict from str to list of str; [None] below stands for [KeyError]. *)
Abbreviation dict := (gmap string (list string)).

(** ** extract_entities *)

(** [grouped_entities[k].append(w)] *)
Definition append_at (k w : string) (d : dict) : option dict :=
  l ← d !! k; Some (<[k := l ++ [w]]> d).

(** The body of the loop at lines 59-65. *)
Definition group_entity (d : dict) (e : entity) : option dict :=
  if decide (entity_group e = "ORG") then append_at "ORGs" (word e) d
  else if decide (entity_group e = "LOC") then append_at "LOCs" (word e) d
  else if decide (entity_group e = "PER") then append_at "PERs" (word e) d
  else Some d.

Fixpoint group_loop (entities : list entity) (d : dict) : option dict :=
  match entities with
  | [] => Some d
  | e :: rest => d' ← group_entity d e; group_loop rest d'
  end.

Section with_set_order.
Context {order : SetOrder}.

(** The loop at lines 68-69, over a list of keys:
    [grouped_entities[word] = list(set(grouped_entities[word]))]. *)
Fixpoint dedup_loop (keys : list string) (d : dict) : option dict :=
  match keys with
  | [] => Some d
  | k :: rest => l ← d !! k; dedup_loop rest (<[k := list_of_set l]> d)
  end.

(** Lines 57-71: what [extract_entities] does with the pipeline's output.
    Python walks the keys in insertion order, the model in the order of
    [map_to_list]; [dedup_loop_Permutation] shows the order is immaterial. *)
Definition group_entities (entities : list entity) : option dict :=
  let grouped_entities : dict :=
    <["PERs" := []]> (<["LOCs" := []]> (<["ORGs" := []]> ∅)) in
  grouped ← group_loop entities grouped_entities;
  dedup_loop (map_to_list grouped).*1 grouped.

Definition extract_entities (text : string) (ner_pipeline : token_classifier)
  : option dict :=
  let entities := ner_pipeline text in
  group_entities entities.

End with_set_order.

(** ** transcribe_audio *)

(** The uploaded file is a byte stream with a read position. *)
Record UploadedFile := {
  content : list Byte.byte;
  position : nat;
}.

(** [uploaded_file.read()]: the bytes from the position on; the position
    moves to the end. *)
Definition read (f : UploadedFile) : list Byte.byte * UploadedFile :=
  (drop (position f) (content f),
   {| content := content f;
      position := position f `max` length (content f) |}).

(** What the speech-recognition pipeline returns when timestamps are asked
    for: the text and the timestamped chunks. *)
Record chunk := {
  timestamp : float * option float;
  chunk_text : string;
}.

Record transcription := {
  text : string;
  chunks : list chunk;
}.

(** The loaded pipeline, called as [whisper_model(audio, return_timestamps)]. *)
Definition asr_pipeline := list Byte.byte → bool → transcription.

(** ** main *)

(** The Streamlit calls of the script, in the order they are made. *)
Inductive st_call :=
  | st_title (body : string)
  | st_write (body : string)
  | st_subheader (body : string)
  | st_file_uploader (label : string) (type : list string)
  | st_spinner (body : string).

(** [st.write(f"- {org}")] *)
Definition bullet (value : string) : st_call := st_write ("- " +:+ value).

(** One of the three blocks of lines 104-121: a heading and one bullet per
    value when the list is true (non-empty), the placeholder otherwise. *)
Definition write_bucket (heading placeholder : string) (values : list string)
  : list st_call :=
  match values with
  | [] => [st_write placeholder]
  | _ :: _ => st_write heading :: (bullet <$> values)
  end.

(** Lines 97-98. *)
Definition show_transcript (transcript : string) : list st_call :=
  [st_subheader "Transcription:"; st_write transcript].

(** Lines 103-121. *)
Definition show_entities (entities : dict) : option (list st_call) :=
  orgs ← entities !! "ORGs";
  let orgs_block :=
    write_bucket "**Organizations (ORGs):**" "No organizations found." orgs in
  locs ← entities !! "LOCs";
  let locs_block :=
    write_bucket "**Locations (LOCs):**" "No locations found." locs in
  pers ← entities !! "PERs";
  let pers_block :=
    write_bucket "**Persons (PERs):**" "No persons found." pers in
  Some (st_subheader "Extracted Entities:"
          :: orgs_block ++ locs_block ++ pers_block).

Section app.
Context {order : SetOrder}.
Variable load_whisper_model : () → asr_pipeline.
Variable load_ner_model : () → token_classifier.

Definition transcribe_audio (uploaded_file : UploadedFile)
  : string * UploadedFile :=
  let whisper_model := load_whisper_model () in
  let '(audio, uploaded_file) := read uploaded_file in
  let transcription := whisper_model audio true in
  (text transcription, uploaded_file).

Definition STUDENT_NAME := "Yusuf Öksüzer".
Definition STUDENT_ID := "150220334".

(** Lines 78-89, up to the upload widget. *)
Definition main_intro : list st_call :=
  [ st_title "Meeting Transcription and Entity Extraction";
    st_write ("**" +:+ STUDENT_ID +:+ " - " +:+ STUDENT_NAME +:+ "**");
    st_write "Upload a business meeting audio file to:";
    st_write "1. Transcribe the meeting audio into text.";
    st_write "2. Extract key entities such as Persons, Organizations, Dates and Locations.";
    st_file_uploader "Upload a audio file (WAV format)" ["wav"] ].

(** [file] is what the upload widget returned; [None] is Python's [None]. *)
Definition main (file : option UploadedFile) : option (list st_call) :=
  match file with
  | None => Some main_intro
  | Some file =>
      let whisper_model := load_whisper_model () in
      let ner_model := load_ner_model () in
      let '(transcript, _) := transcribe_audio file in
      entities ← extract_entities transcript ner_model;
      listing ← show_entities entities;
      Some (main_intro
              ++ [st_spinner "Transcribing the audio file... This may take a minute"]
              ++ show_transcript transcript
              ++ [st_spinner "Extracting entities..."]
              ++ listing)
  end.

End app.

(** ** Vocabulary of the statements *)

(** The dict literal of line 57 with arbitrary lists in place of [[]]. *)
Definition buckets (orgs locs pers : list string) : dict :=
  <["PERs" := pers]> (<["LOCs" := locs]> (<["ORGs" := orgs]> ∅)).

(** The surface texts of the spans carrying a given label, in order. *)
Definition words_of (label : string) (entities : list entity) : list string :=
  word <$> filter (λ e, entity_group e = label) entities.

(** A bucket read as the set of its values. *)
Definition bucket_set (d : dict) (k : string) : option (gset string) :=
  list_to_set <$> d !! k.

(** The label each bucket collects (lines 60-65). *)
Definition bucket_labels : list (string * string) :=
  [("ORGs", "ORG"); ("LOCs", "LOC"); ("PERs", "PER")].

(** A span with the given label and text; the other attributes are fixed. *)
Definition span (g w : string) : entity :=
  {| entity_group := g; word := w;
     score := S754_finite false 4503599627370496 (-53);
     start := None; end_ := None |}.

(** The span sequence of the example in the specification. *)
Definition example_spans : list entity :=
  [span "ORG" "Acme"; span "ORG" "Acme"; span "PER" "Jane";
   span "MISC" "Monday"].

(** Two spans that agree on the two fields the loop reads. *)
Definition same_label_and_word (e1 e2 : entity) : Prop :=
  entity_group e1 = entity_group e2 ∧ word e1 = word e2.

(** The presentation contract in the specification's words: a bulleted
    list of the values exactly when there are some, the placeholder exactly
    when there are none. *)
Definition presents (heading placeholder : string) (values : list string)
    (block : list st_call) : Prop :=
  (values ≠ [] ↔ block = st_write heading :: (bullet <$> values)) ∧
  (values = [] ↔ block = [st_write placeholder]).

(** An uploaded file, two speech models that differ in their chunks only,
    and a tagger, for the examples. *)
Definition example_file : UploadedFile :=
  {| content := [Byte.x52; Byte.x49; Byte.x46; Byte.x46]; position := 0 |}.

Definition load_with_chunks : () → asr_pipeline :=
  λ _ _ _, {| text := "Jane joined Acme on Monday";
              chunks := [ {| timestamp :=
                               (S754_zero false,
                                Some (S754_finite false 5629499534213120 (-51)));
                             chunk_text := "Jane joined Acme on Monday" |} ] |}.

Definition load_without_chunks : () → asr_pipeline :=
  λ _ _ _, {| text := "Jane joined Acme on Monday"; chunks := [] |}.

Definition load_example_ner : () → token_classifier :=
  λ _ _, example_spans.

(** The example spans as the tagger reports them, with scores and offsets. *)
Definition example_spans_scored : list entity :=
  [ {| entity_group := "ORG"; word := "Acme";
       score := S754_finite false 7881299347898368 (-53);
       start := Some 12%Z; end_ := Some 16%Z |};
    {| entity_group := "ORG"; word := "Acme";
       score := S754_finite false 6755399441055744 (-53);
       start := Some 40%Z; end_ := Some 44%Z |};
    {| entity_group := "PER"; word := "Jane";
       score := S754_finite false 5629499534213120 (-53);
       start := Some 0%Z; end_ := Some 4%Z |};
    {| entity_group := "MISC"; word := "Monday";
       score := S754_finite false 4503599627370496 (-54);
       start := Some 20%Z; end_ := Some 26%Z |} ].

(** A label that one of the three branches of lines 60-65 tests for. *)
Definition recognized (label : string) : Prop := label ∈ bucket_labels.*2.

(** The label collected under a key, when the key is one of the three. *)
Definition bucket_label (k : string) : option string :=
  (list_to_map bucket_labels : gmap string string) !! k.

(** A tagger that reports the example spans with scores and offsets. *)
Definition load_example_ner_scored : () → token_classifier :=
  λ _ _, example_spans_scored.

(** The page [main] writes for an uploaded file, up to the listing. *)
Definition page (transcript : string) (listing : list st_call)
  : list st_call :=
  main_intro
    ++ [st_spinner "Transcribing the audio file... This may take a minute"]
    ++ show_transcript transcript
    ++ [st_spinner "Extracting entities..."]
    ++ listing.

(** The listing of three buckets, as [show_entities] lays it out. *)
Definition listing_of (orgs locs pers : list string) : list st_call :=
  st_subheader "Extracted Entities:"
    :: write_bucket "**Organizations (ORGs):**" "No organizations found." orgs
    ++ write_bucket "**Locations (LOCs):**" "No locations found." locs
    ++ write_bucket "**Persons (PERs):**" "No persons found." pers.

(** A tagger that reports a single span, with a label that has no bucket. *)
Definition load_misc_ner : () → token_classifier :=
  λ _ _, [span "MISC" "Monday"].

(** ** Implementations of the set order *)

(** Two implementations: first occurrences in order, and its mirror image. *)
#[local] Program Instance first_seen_order : SetOrder :=
  {| list_of_set := remove_dups |}.
Next Obligation. apply NoDup_remove_dups. Qed.
Next Obligation. intros. apply elem_of_remove_dups. Qed.

#[local] Program Instance last_seen_order : SetOrder :=
  {| list_of_set xs := reverse (remove_dups xs) |}.
Next Obligation.
  intros. eapply NoDup_Permutation_proper;
    [apply reverse_Permutation | apply NoDup_remove_dups].
Qed.
Next Obligation. intros. rewrite elem_of_reverse. apply elem_of_remove_dups. Qed.

(** ** Reasoning about the grouping step *)

Lemma buckets_lookup_ORGs o l p : buckets o l p !! "ORGs" = Some o.
Proof. reflexivity. Qed.
Lemma buckets_lookup_LOCs o l p : buckets o l p !! "LOCs" = Some l.
Proof. reflexivity. Qed.
Lemma buckets_lookup_PERs o l p : buckets o l p !! "PERs" = Some p.
Proof. reflexivity. Qed.
Lemma buckets_lookup_other o l p k :
  k ≠ "ORGs" → k ≠ "LOCs" → k ≠ "PERs" → buckets o l p !! k = None.
Proof.
  intros. unfold buckets.
  rewrite !lookup_insert_ne by done. apply lookup_empty.
Qed.

Lemma buckets_dom o l p : dom (buckets o l p) = {["ORGs"; "LOCs"; "PERs"]}.
Proof.
  unfold buckets. rewrite !dom_insert_L, dom_empty_L. set_solver.
Qed.

Lemma buckets_lookup_inv o l p k ws :
  buckets o l p !! k = Some ws →
  k = "ORGs" ∧ ws = o ∨ k = "LOCs" ∧ ws = l ∨ k = "PERs" ∧ ws = p.
Proof.
  unfold buckets. rewrite !lookup_insert, lookup_empty.
  repeat case_decide; naive_solver.
Qed.

Ltac buckets_ext :=
  apply map_eq; intros ?; unfold buckets;
  rewrite ?lookup_fmap, !lookup_insert, ?lookup_fmap, ?lookup_empty;
  repeat case_decide; simplify_eq; done.

Lemma buckets_insert_ORGs o l p x : <["ORGs" := x]> (buckets o l p) = buckets x l p.
Proof. buckets_ext. Qed.
Lemma buckets_insert_LOCs o l p x : <["LOCs" := x]> (buckets o l p) = buckets o x p.
Proof. buckets_ext. Qed.
Lemma buckets_insert_PERs o l p x : <["PERs" := x]> (buckets o l p) = buckets o l x.
Proof. buckets_ext. Qed.

Lemma buckets_fmap (f : list string → list string) o l p :
  f <$> buckets o l p = buckets (f o) (f l) (f p).
Proof. unfold buckets. by rewrite !fmap_insert, fmap_empty. Qed.

Lemma words_of_cons label e es :
  words_of label (e :: es) =
  if decide (entity_group e = label) then word e :: words_of label es
  else words_of label es.
Proof.
  unfold words_of. rewrite filter_cons. by case_decide.
Qed.

Lemma elem_of_words_of label es w :
  w ∈ words_of label es ↔ ∃ e, e ∈ es ∧ entity_group e = label ∧ word e = w.
Proof.
  unfold words_of. rewrite list_elem_of_fmap. split.
  - intros (e & -> & [He ?]%list_elem_of_filter). eauto.
  - intros (e & ? & ? & <-). exists e. split; [done|].
    by apply list_elem_of_filter.
Qed.

(** One pass of the loop moves the span's text to the end of its bucket. *)
Lemma group_entity_buckets o l p e :
  group_entity (buckets o l p) e =
  Some (buckets (o ++ words_of "ORG" [e]) (l ++ words_of "LOC" [e])
                (p ++ words_of "PER" [e])).
Proof.
  unfold group_entity, append_at. rewrite !words_of_cons.
  repeat case_decide; try congruence; cbn [words_of fmap filter];
    rewrite ?app_nil_r;
    rewrite ?buckets_lookup_ORGs, ?buckets_lookup_LOCs, ?buckets_lookup_PERs;
    cbn [mbind option_bind];
    by rewrite ?buckets_insert_ORGs, ?buckets_insert_LOCs, ?buckets_insert_PERs.
Qed.
Lemma words_of_app label es1 es2 :
  words_of label (es1 ++ es2) = words_of label es1 ++ words_of label es2.
Proof. unfold words_of. by rewrite filter_app, fmap_app. Qed.

(** Loop invariant of lines 59-65: the three buckets grow by the texts of
    the spans seen so far, and no other key appears. *)
Lemma group_loop_buckets es : ∀ o l p,
  group_loop es (buckets o l p) =
  Some (buckets (o ++ words_of "ORG" es) (l ++ words_of "LOC" es)
                (p ++ words_of "PER" es)).
Proof.
  induction es as [|e es IH]; intros o l p.
  - cbn. by rewrite !app_nil_r.
  - cbn [group_loop]. rewrite group_entity_buckets. cbn [mbind option_bind].
    rewrite IH, <- !app_assoc, <- !words_of_app. reflexivity.
Qed.

Section dedup.
Context {order : SetOrder}.

Lemma list_of_set_nil : list_of_set [] = [].
Proof.
  destruct (list_of_set []) as [|x xs] eqn:E; [done|].
  assert (x ∈ list_of_set []) as Hx by (rewrite E; left).
  rewrite list_of_set_elem in Hx. by apply elem_of_nil in Hx.
Qed.

Lemma list_of_set_to_set xs :
  list_to_set (C:=gset string) (list_of_set xs) = list_to_set xs.
Proof.
  apply set_eq; intros x. rewrite !elem_of_list_to_set. apply list_of_set_elem.
Qed.

(** Each key that is walked has its list replaced; the others are left. *)
Lemma dedup_loop_lookup keys : ∀ d,
  NoDup keys → (∀ k, k ∈ keys → is_Some (d !! k)) →
  ∃ d', dedup_loop keys d = Some d' ∧
        ∀ k, d' !! k = if decide (k ∈ keys) then list_of_set <$> d !! k
                       else d !! k.
Proof.
  induction keys as [|k keys IH]; intros d Hnd Hdom.
  - exists d. split; [done|]. intros k. case_decide as Hk; [|done].
    by apply elem_of_nil in Hk.
  - apply NoDup_cons in Hnd as [Hk Hnd].
    destruct (Hdom k) as [ws Hws]; [left|].
    cbn [dedup_loop]. rewrite Hws. cbn [mbind option_bind].
    destruct (IH (<[k := list_of_set ws]> d) Hnd) as (d' & Hd' & Hlook).
    { intros j Hj. rewrite lookup_insert_is_Some.
      destruct (decide (k = j)); [by left|right]. split; [done|].
      apply Hdom. by right. }
    exists d'. split; [done|]. intros j. rewrite Hlook.
    destruct (decide (j = k)) as [->|Hne].
    + rewrite decide_False by done. rewrite decide_True by left.
      by rewrite lookup_insert_eq, Hws.
    + rewrite lookup_insert_ne by done.
      destruct (decide (j ∈ keys)) as [Hin|Hnin].
      * by rewrite decide_True by (by right).
      * rewrite decide_False; [done|].
        intros [?|?]%elem_of_cons; done.
Qed.

(** Walking every key of the dict maps [list(set(_))] over its values. *)
Lemma dedup_loop_all (d : dict) (keys : list string) :
  NoDup keys → (∀ k, k ∈ keys ↔ is_Some (d !! k)) →
  dedup_loop keys d = Some (list_of_set <$> d).
Proof.
  intros Hnd Hkeys.
  destruct (dedup_loop_lookup keys d Hnd) as (d' & -> & Hlook).
  { intros k. apply Hkeys. }
  f_equal. apply map_eq; intros k. rewrite Hlook, lookup_fmap.
  case_decide as Hk; [done|].
  destruct (d !! k) eqn:E; [|done]. destruct Hk. apply Hkeys. by eexists.
Qed.

Lemma elem_of_dict_keys (d : dict) k :
  k ∈ (map_to_list d).*1 ↔ is_Some (d !! k).
Proof.
  rewrite list_elem_of_fmap. split.
  - intros ([k' ws] & -> & Hin%elem_of_map_to_list). by eexists.
  - intros [ws Hws]. exists (k, ws). split; [done|].
    by apply elem_of_map_to_list.
Qed.

(** The order in which the keys are walked does not matter. *)
Lemma dedup_loop_Permutation (d : dict) (keys : list string) :
  keys ≡ₚ (map_to_list d).*1 →
  dedup_loop keys d = dedup_loop (map_to_list d).*1 d.
Proof.
  intros Hp.
  assert (NoDup (map_to_list d).*1) as Hnd by apply NoDup_fst_map_to_list.
  rewrite (dedup_loop_all d (map_to_list d).*1)
    by auto using elem_of_dict_keys.
  apply dedup_loop_all.
  - by rewrite Hp.
  - intros k. rewrite Hp. apply elem_of_dict_keys.
Qed.

(** Python's own walk, in insertion order, ends in the same dict. *)
Lemma dedup_loop_insertion_order o l p :
  dedup_loop ["ORGs"; "LOCs"; "PERs"] (buckets o l p) =
  dedup_loop (map_to_list (buckets o l p)).*1 (buckets o l p).
Proof.
  apply dedup_loop_Permutation, NoDup_Permutation.
  - by apply (bool_decide_unpack _).
  - apply NoDup_fst_map_to_list.
  - intros k. rewrite elem_of_dict_keys, <- elem_of_dom, buckets_dom.
    rewrite !elem_of_cons, elem_of_nil, !elem_of_union, !elem_of_singleton.
    tauto.
Qed.

(** The grouping step in closed form. *)
Lemma group_entities_buckets es :
  group_entities es =
  Some (buckets (list_of_set (words_of "ORG" es))
                (list_of_set (words_of "LOC" es))
                (list_of_set (words_of "PER" es))).
Proof.
  unfold group_entities. fold (buckets [] [] []).
  rewrite group_loop_buckets. cbn [mbind option_bind app].
  rewrite (dedup_loop_all _ _ (NoDup_fst_map_to_list _) (elem_of_dict_keys _)).
  by rewrite buckets_fmap.
Qed.

End dedup.

Section grouping.
Context {order : SetOrder}.

Lemma group_entities_lookup es bucket label :
  (bucket, label) ∈ bucket_labels →
  ∃ d, group_entities es = Some d ∧
       d !! bucket = Some (list_of_set (words_of label es)).
Proof.
  intros Hin. eexists. split; [apply group_entities_buckets|].
  unfold bucket_labels in Hin. rewrite !elem_of_cons, elem_of_nil in Hin.
  destruct Hin as [?|[?|[?|[]]]]; simplify_eq; reflexivity.
Qed.

(** C1: every text in the bucket "ORGs" of the grouping result is the word
    of some input span labelled "ORG", and likewise for "LOCs" with "LOC"
    and "PERs" with "PER". *)
Theorem grouping_sound (entities : list entity) :
  ∃ d, group_entities entities = Some d ∧
    ∀ bucket label ws w,
      (bucket, label) ∈ bucket_labels →
      d !! bucket = Some ws → w ∈ ws →
      ∃ e, e ∈ entities ∧ entity_group e = label ∧ word e = w.
Proof.
  eexists. split; [apply group_entities_buckets|].
  intros bucket label ws w Hin Hws Hw.
  destruct (group_entities_lookup entities bucket label Hin) as (d & Hd & Hb).
  rewrite group_entities_buckets in Hd. injection Hd as <-.
  rewrite Hb in Hws. injection Hws as <-.
  rewrite list_of_set_elem in Hw. by apply elem_of_words_of.
Qed.

(** C2: the word of every span labelled "ORG", "LOC" or "PER" is present in
    the bucket "ORGs", "LOCs" or "PERs" of the grouping result. *)
Theorem grouping_complete (entities : list entity) :
  ∃ d, group_entities entities = Some d ∧
    ∀ e bucket label,
      e ∈ entities → (bucket, label) ∈ bucket_labels →
      entity_group e = label →
      ∃ ws, d !! bucket = Some ws ∧ word e ∈ ws.
Proof.
  eexists. split; [apply group_entities_buckets|].
  intros e bucket label He Hin Hlabel.
  destruct (group_entities_lookup entities bucket label Hin) as (d & Hd & Hb).
  rewrite group_entities_buckets in Hd. injection Hd as <-.
  eexists. split; [exact Hb|].
  apply list_of_set_elem, elem_of_words_of. eauto.
Qed.

Lemma words_of_unrecognized label before e after :
  entity_group e ≠ label →
  words_of label (before ++ e :: after) = words_of label (before ++ after).
Proof.
  intros Hne. rewrite !words_of_app, words_of_cons.
  by rewrite decide_False.
Qed.

(** C3: a span whose label is none of "ORG", "LOC", "PER" leaves the dict
    untouched when the loop visits it, and the grouping result is the one
    obtained without that span. *)
Theorem unrecognized_span_dropped (before after : list entity) (e : entity) :
  entity_group e ≠ "ORG" → entity_group e ≠ "LOC" → entity_group e ≠ "PER" →
  (∀ d, group_entity d e = Some d) ∧
  is_Some (group_entities (before ++ e :: after)) ∧
  group_entities (before ++ e :: after) = group_entities (before ++ after).
Proof.
  intros Ho Hl Hp. split; [|split].
  - intros d. unfold group_entity. by rewrite !decide_False.
  - rewrite group_entities_buckets. by eexists.
  - rewrite !group_entities_buckets.
    by rewrite !words_of_unrecognized.
Qed.

(** C4: no bucket of the grouping result holds the same text twice. *)
Theorem buckets_NoDup (entities : list entity) :
  ∃ d, group_entities entities = Some d ∧
    ∀ k ws, d !! k = Some ws → NoDup ws.
Proof.
  eexists. split; [apply group_entities_buckets|].
  intros k ws Hws. apply buckets_lookup_inv in Hws.
  destruct Hws as [[_ ->]|[[_ ->]|[_ ->]]]; apply list_of_set_NoDup.
Qed.

(** C5: the grouping result has exactly the keys "ORGs", "LOCs" and "PERs". *)
Theorem grouping_keys (entities : list entity) :
  ∃ d, group_entities entities = Some d ∧
    dom d = {["ORGs"; "LOCs"; "PERs"]}.
Proof.
  eexists. split; [apply group_entities_buckets|apply buckets_dom].
Qed.

End grouping.

Lemma bucket_set_buckets {run1 run2 : SetOrder} es k :
  bucket_set
    (buckets (list_of_set (SetOrder:=run1) (words_of "ORG" es))
             (list_of_set (SetOrder:=run1) (words_of "LOC" es))
             (list_of_set (SetOrder:=run1) (words_of "PER" es))) k =
  bucket_set
    (buckets (list_of_set (SetOrder:=run2) (words_of "ORG" es))
             (list_of_set (SetOrder:=run2) (words_of "LOC" es))
             (list_of_set (SetOrder:=run2) (words_of "PER" es))) k.
Proof.
  unfold bucket_set, buckets. rewrite !lookup_insert, lookup_empty.
  repeat case_decide; cbn; by rewrite ?list_of_set_to_set.
Qed.

(** C6: two runs of the grouping step on the same span sequence, whatever
    order each run's sets happen to list their members in, give the same
    set of texts in every bucket. *)
Theorem grouping_repeatable (run1 run2 : SetOrder) (entities : list entity) :
  ∃ d1 d2,
    group_entities (order:=run1) entities = Some d1 ∧
    group_entities (order:=run2) entities = Some d2 ∧
    ∀ k, bucket_set d1 k = bucket_set d2 k.
Proof.
  do 2 eexists. split; [apply group_entities_buckets|].
  split; [apply group_entities_buckets|].
  apply bucket_set_buckets.
Qed.

Lemma list_of_set_singleton {order : SetOrder} xs a :
  (∀ x, x ∈ xs ↔ x = a) → list_of_set xs = [a].
Proof.
  intros Hxs.
  pose proof (list_of_set_NoDup xs) as Hnd.
  assert (∀ x, x ∈ list_of_set xs ↔ x = a) as Hel.
  { intros x. by rewrite list_of_set_elem. }
  destruct (list_of_set xs) as [|y [|z l]].
  - exfalso. eapply elem_of_nil, Hel. reflexivity.
  - f_equal. apply Hel. left.
  - exfalso. apply NoDup_cons in Hnd as [Hy _]. apply Hy.
    assert (y = a) as -> by (apply Hel; left).
    assert (z = a) as -> by (apply Hel; right; left). left.
Qed.

(** C7: on the spans (ORG, Acme), (ORG, Acme), (PER, Jane), (MISC, Monday)
    the grouping step returns the buckets ORGs = {Acme}, LOCs = {} and
    PERs = {Jane}; each bucket has at most one member, so the lists
    themselves are determined. *)
Theorem grouping_example {order : SetOrder} :
  ∃ d, group_entities example_spans = Some d ∧
    bucket_set d "ORGs" = Some {["Acme"]} ∧
    bucket_set d "LOCs" = Some ∅ ∧
    bucket_set d "PERs" = Some {["Jane"]} ∧
    d = buckets ["Acme"] [] ["Jane"].
Proof.
  assert (group_entities example_spans = Some (buckets ["Acme"] [] ["Jane"]))
    as Hrun.
  { rewrite group_entities_buckets.
    change (words_of "ORG" example_spans) with ["Acme"; "Acme"].
    change (words_of "LOC" example_spans) with (@nil string).
    change (words_of "PER" example_spans) with ["Jane"].
    rewrite list_of_set_nil.
    rewrite (list_of_set_singleton ["Acme"; "Acme"] "Acme").
    2:{ intros x. rewrite !elem_of_cons, elem_of_nil. tauto. }
    rewrite (list_of_set_singleton ["Jane"] "Jane"); [done|].
    intros x. rewrite !elem_of_cons, elem_of_nil. tauto. }
  eexists. split; [exact Hrun|].
  unfold bucket_set.
  rewrite buckets_lookup_ORGs, buckets_lookup_LOCs, buckets_lookup_PERs.
  cbn [fmap option_fmap option_map list_to_set].
  rewrite !(right_id_L ∅ (∪)). repeat split.
Qed.

(** ** The transcription step *)

(** C9: the transcription step returns the 'text' field of what the model
    gave for the file's bytes, asked with timestamps; two models whose
    answers differ in the timestamped chunks only lead to the same
    returned string. *)
Theorem transcribe_audio_text (load_whisper_model : () → asr_pipeline)
    (file : UploadedFile) :
  (transcribe_audio load_whisper_model file).1 =
    text (load_whisper_model () (read file).1 true) ∧
  ∀ load' : () → asr_pipeline,
    text (load' () (read file).1 true) =
      text (load_whisper_model () (read file).1 true) →
    (transcribe_audio load' file).1 =
      (transcribe_audio load_whisper_model file).1.
Proof.
  split.
  - reflexivity.
  - intros load' Htext. unfold transcribe_audio. cbn. exact Htext.
Qed.

(** ** The render pass *)

Lemma write_bucket_presents heading placeholder values :
  heading ≠ placeholder →
  presents heading placeholder values
    (write_bucket heading placeholder values).
Proof.
  intros Hne. unfold presents.
  destruct values as [|v vs]; cbn [write_bucket fmap list_fmap];
    split; split; try done; intros [=]; congruence.
Qed.

Lemma elem_of_write_bucket heading placeholder values c :
  c ∈ write_bucket heading placeholder values ↔
  values = [] ∧ c = st_write placeholder ∨
  values ≠ [] ∧ (c = st_write heading ∨ ∃ v, v ∈ values ∧ c = bullet v).
Proof.
  destruct values as [|v vs]; cbn [write_bucket].
  - rewrite list_elem_of_singleton. naive_solver.
  - rewrite elem_of_cons, list_elem_of_fmap. naive_solver.
Qed.

Lemma show_entities_buckets o l p :
  show_entities (buckets o l p) =
  Some (st_subheader "Extracted Entities:"
    :: write_bucket "**Organizations (ORGs):**" "No organizations found." o
    ++ write_bucket "**Locations (LOCs):**" "No locations found." l
    ++ write_bucket "**Persons (PERs):**" "No persons found." p).
Proof. reflexivity. Qed.

Ltac block_membership :=
  rewrite !elem_of_app, !elem_of_write_bucket; unfold bullet;
  cbn [String.append]; naive_solver.

(** C8: for a dict with the three buckets, the listing consists, after its
    subheader, of one block per category; the block is the heading with one
    bullet per value exactly when the bucket has values and is the
    category's placeholder exactly when it has none, and a placeholder is
    written nowhere else in the listing.  The transcript is written, also
    in every run of [main] on an uploaded file. *)
Theorem render_buckets {order : SetOrder}
    (load_whisper_model : () → asr_pipeline)
    (load_ner_model : () → token_classifier)
    (file : UploadedFile) (transcript : string)
    (entities : dict) (orgs locs pers : list string) :
  entities !! "ORGs" = Some orgs →
  entities !! "LOCs" = Some locs →
  entities !! "PERs" = Some pers →
  (∃ ob lb pb,
     show_entities entities =
       Some (st_subheader "Extracted Entities:" :: ob ++ lb ++ pb) ∧
     presents "**Organizations (ORGs):**" "No organizations found." orgs ob ∧
     presents "**Locations (LOCs):**" "No locations found." locs lb ∧
     presents "**Persons (PERs):**" "No persons found." pers pb ∧
     (st_write "No organizations found." ∈ ob ++ lb ++ pb ↔ orgs = []) ∧
     (st_write "No locations found." ∈ ob ++ lb ++ pb ↔ locs = []) ∧
     (st_write "No persons found." ∈ ob ++ lb ++ pb ↔ pers = [])) ∧
  st_write transcript ∈ show_transcript transcript ∧
  ∃ out,
    main load_whisper_model load_ner_model (Some file) = Some out ∧
    st_write (transcribe_audio load_whisper_model file).1 ∈ out.
Proof.
  intros Ho Hl Hp. split; [|split].
  - do 3 eexists. split.
    { unfold show_entities. rewrite Ho, Hl, Hp. reflexivity. }
    split; [by apply write_bucket_presents|].
    split; [by apply write_bucket_presents|].
    split; [by apply write_bucket_presents|].
    split; [|split]; block_membership.
  - unfold show_transcript. right. left.
  - unfold main, extract_entities. cbn [transcribe_audio read fst].
    rewrite group_entities_buckets. cbn [mbind option_bind].
    rewrite show_entities_buckets. cbn [mbind option_bind].
    eexists. split; [reflexivity|].
    rewrite !elem_of_app. right. right. left.
    unfold show_transcript. right. left.
Qed.

(** ** Dependence of the grouping step on its input *)

Lemma words_of_same_label_and_word label es1 es2 :
  Forall2 same_label_and_word es1 es2 →
  words_of label es1 = words_of label es2.
Proof.
  induction 1 as [|e1 e2 es1 es2 [Hg Hw] _ IH]; [done|].
  rewrite !words_of_cons, Hg, Hw, IH. reflexivity.
Qed.

(** C10: two span sequences of the same length that agree, position by
    position, on 'entity_group' and 'word' are grouped into the same dict
    within a run, and into the same bucket sets across runs. *)
Theorem grouping_reads_label_and_word (run1 run2 : SetOrder)
    (es1 es2 : list entity) :
  Forall2 same_label_and_word es1 es2 →
  group_entities (order:=run1) es1 = group_entities (order:=run1) es2 ∧
  ∃ d1 d2,
    group_entities (order:=run1) es1 = Some d1 ∧
    group_entities (order:=run2) es2 = Some d2 ∧
    ∀ k, bucket_set d1 k = bucket_set d2 k.
Proof.
  intros Hsame. split.
  - rewrite !group_entities_buckets.
    by rewrite !(words_of_same_label_and_word _ es1 es2).
  - do 2 eexists. split; [apply group_entities_buckets|].
    split; [apply group_entities_buckets|].
    intros k. rewrite !(words_of_same_label_and_word _ es1 es2) by done.
    apply bucket_set_buckets.
Qed.

(** The opening text of the page names dates among the entities, while
    no bucket collects a date label. *)
Remark dates_advertised_not_grouped :
  st_write "2. Extract key entities such as Persons, Organizations, Dates and Locations."
    ∈ main_intro ∧
  bucket_labels.*2 = ["ORG"; "LOC"; "PER"].
Proof. split; [do 4 right; left|reflexivity]. Qed.

(** ** Further properties of the grouping step *)

(** Every bucket of the result, read as a set, in closed form. *)
Lemma bucket_set_group_entities {order : SetOrder} es :
  ∃ d, group_entities es = Some d ∧
    ∀ k, bucket_set d k =
         (λ label, list_to_set (words_of label es)) <$> bucket_label k.
Proof.
  eexists. split; [apply group_entities_buckets|]. intros k.
  unfold bucket_set, buckets, bucket_label, bucket_labels.
  cbn [list_to_map foldr fst snd]. rewrite !lookup_insert, !lookup_empty.
  repeat case_decide; simplify_eq; cbn; by rewrite ?list_of_set_to_set.
Qed.

(** X1: grouping a concatenation of two span sequences gives, in every
    bucket, the union of the sets obtained from the two parts. *)
Theorem grouping_app {order : SetOrder} (es1 es2 : list entity) :
  ∃ d d1 d2,
    group_entities (es1 ++ es2) = Some d ∧
    group_entities es1 = Some d1 ∧
    group_entities es2 = Some d2 ∧
    ∀ k, bucket_set d k =
         (s1 ← bucket_set d1 k; s2 ← bucket_set d2 k; Some (s1 ∪ s2)).
Proof.
  destruct (bucket_set_group_entities (es1 ++ es2)) as (d & Hd & Hs).
  destruct (bucket_set_group_entities es1) as (d1 & Hd1 & Hs1).
  destruct (bucket_set_group_entities es2) as (d2 & Hd2 & Hs2).
  exists d, d1, d2. repeat (split; [assumption|]).
  intros k. rewrite Hs, Hs1, Hs2.
  destruct (bucket_label k) as [label|]; [|reflexivity]. cbn.
  by rewrite words_of_app, list_to_set_app_L.
Qed.

Lemma words_of_Permutation label es1 es2 :
  es1 ≡ₚ es2 → words_of label es1 ≡ₚ words_of label es2.
Proof. intros Hp. unfold words_of. by rewrite Hp. Qed.

(** X2: the order in which the tagger reports the spans has no influence
    on the bucket sets. *)
Theorem grouping_Permutation {order : SetOrder} (es1 es2 : list entity) :
  es1 ≡ₚ es2 →
  ∃ d1 d2,
    group_entities es1 = Some d1 ∧
    group_entities es2 = Some d2 ∧
    ∀ k, bucket_set d1 k = bucket_set d2 k.
Proof.
  intros Hp.
  destruct (bucket_set_group_entities es1) as (d1 & Hd1 & Hs1).
  destruct (bucket_set_group_entities es2) as (d2 & Hd2 & Hs2).
  exists d1, d2. repeat (split; [assumption|]).
  intros k. rewrite Hs1, Hs2.
  destruct (bucket_label k) as [label|]; [|reflexivity]. cbn. f_equal.
  apply list_to_set_perm_L. by apply words_of_Permutation.
Qed.

Lemma list_of_set_length {order : SetOrder} xs :
  (length (list_of_set xs) ≤ length xs)%nat.
Proof.
  apply submseteq_length, NoDup_submseteq; [apply list_of_set_NoDup|].
  intros x. by rewrite list_of_set_elem.
Qed.

Lemma words_of_length label es :
  length (words_of label es) = length (filter (λ e, entity_group e = label) es).
Proof. unfold words_of. by rewrite length_fmap. Qed.

Lemma words_of_total_length es :
  (length (words_of "ORG" es) + length (words_of "LOC" es)
     + length (words_of "PER" es) ≤ length es)%nat.
Proof.
  induction es as [|e es IH]; [done|].
  rewrite !words_of_cons.
  repeat case_decide; try congruence; cbn [length]; lia.
Qed.

(** X3: a bucket is never longer than the number of spans carrying its
    label, and the three buckets together never hold more texts than there
    are spans. *)
Theorem buckets_length {order : SetOrder} (entities : list entity) :
  ∃ orgs locs pers,
    group_entities entities = Some (buckets orgs locs pers) ∧
    (length orgs ≤ length (filter (λ e, entity_group e = "ORG") entities))%nat ∧
    (length locs ≤ length (filter (λ e, entity_group e = "LOC") entities))%nat ∧
    (length pers ≤ length (filter (λ e, entity_group e = "PER") entities))%nat ∧
    (length orgs + length locs + length pers ≤ length entities)%nat.
Proof.
  do 3 eexists. split; [apply group_entities_buckets|].
  rewrite <- !words_of_length.
  pose proof (list_of_set_length (words_of "ORG" entities)).
  pose proof (list_of_set_length (words_of "LOC" entities)).
  pose proof (list_of_set_length (words_of "PER" entities)).
  pose proof (words_of_total_length entities).
  repeat split; lia.
Qed.

Lemma list_of_set_eq_nil {order : SetOrder} xs :
  list_of_set xs = [] ↔ xs = [].
Proof.
  split; [|intros ->; apply list_of_set_nil].
  intros Hnil. destruct xs as [|x xs]; [done|].
  assert (x ∈ list_of_set (x :: xs)) as Hx by (apply list_of_set_elem; left).
  rewrite Hnil in Hx. by apply elem_of_nil in Hx.
Qed.

Lemma recognized_iff label :
  recognized label ↔ label = "ORG" ∨ label = "LOC" ∨ label = "PER".
Proof.
  unfold recognized, bucket_labels. cbn [fmap list_fmap snd].
  rewrite !elem_of_cons, elem_of_nil. tauto.
Qed.

Lemma words_of_nil_iff label es :
  words_of label es = [] ↔ Forall (λ e, entity_group e ≠ label) es.
Proof.
  rewrite Forall_forall. split.
  - intros Hnil e He Hl.
    assert (word e ∈ words_of label es) as Hw
      by (apply elem_of_words_of; eauto).
    rewrite Hnil in Hw. by apply elem_of_nil in Hw.
  - intros Hall. destruct (words_of label es) as [|w ws] eqn:E; [done|].
    assert (w ∈ words_of label es) as Hw by (rewrite E; left).
    apply elem_of_words_of in Hw as (e & He & Hl & _).
    by destruct (Hall e He).
Qed.

Lemma buckets_inj o l p o' l' p' :
  buckets o l p = buckets o' l' p' → o = o' ∧ l = l' ∧ p = p'.
Proof.
  intros Heq.
  pose proof (f_equal (λ d : dict, d !! "ORGs") Heq) as Ho.
  pose proof (f_equal (λ d : dict, d !! "LOCs") Heq) as Hl.
  pose proof (f_equal (λ d : dict, d !! "PERs") Heq) as Hp.
  cbn beta in Ho, Hl, Hp.
  rewrite !buckets_lookup_ORGs in Ho. rewrite !buckets_lookup_LOCs in Hl.
  rewrite !buckets_lookup_PERs in Hp. by simplify_eq.
Qed.

Lemma group_entities_empty_iff {order : SetOrder} es :
  group_entities es = Some (buckets [] [] []) ↔
  Forall (λ e, ¬ recognized (entity_group e)) es.
Proof.
  rewrite group_entities_buckets. split.
  - intros Heq%(inj Some). apply buckets_inj in Heq as (Ho & Hl & Hp).
    apply list_of_set_eq_nil, words_of_nil_iff in Ho, Hl, Hp.
    rewrite Forall_forall in *. intros e He.
    rewrite recognized_iff. intros [?|[?|?]]; naive_solver.
  - intros Hall. f_equal.
    assert (∀ label, recognized label → list_of_set (words_of label es) = [])
      as Hnil.
    { intros label Hrec. apply list_of_set_eq_nil, words_of_nil_iff.
      eapply Forall_impl; [exact Hall|]. cbn. congruence. }
    rewrite !Hnil; [done|..]; apply recognized_iff; auto.
Qed.

(** X4: the grouping result has three empty buckets exactly when no span
    of the tagger's answer carries one of the three labels. *)
Theorem extract_entities_empty {order : SetOrder} (text : string)
    (ner_pipeline : token_classifier) :
  extract_entities text ner_pipeline = Some (buckets [] [] []) ↔
  Forall (λ e, ¬ recognized (entity_group e)) (ner_pipeline text).
Proof. unfold extract_entities. apply group_entities_empty_iff. Qed.

(** X5: the deduplication pass over the keys of a dict, walked in any
    order, succeeds, keeps the keys and the set of texts under each key,
    and leaves no repetition in any value. *)
Theorem dedup_loop_any_order {order : SetOrder} (d : dict)
    (keys : list string) :
  keys ≡ₚ (map_to_list d).*1 →
  ∃ d', dedup_loop keys d = Some d' ∧
    dom d' = dom d ∧
    (∀ k, bucket_set d' k = bucket_set d k) ∧
    (∀ k ws, d' !! k = Some ws → NoDup ws).
Proof.
  intros Hp. exists (list_of_set <$> d). split; [|split; [|split]].
  - rewrite (dedup_loop_Permutation d keys Hp).
    apply dedup_loop_all; [apply NoDup_fst_map_to_list|].
    apply elem_of_dict_keys.
  - apply dom_fmap_L.
  - intros k. unfold bucket_set. rewrite lookup_fmap.
    destruct (d !! k) as [ws|]; [|done]. cbn.
    by rewrite list_of_set_to_set.
  - intros k ws. rewrite lookup_fmap.
    destruct (d !! k) as [ws'|]; [|done]. cbn. intros [= <-].
    apply list_of_set_NoDup.
Qed.

(** ** Further properties of the render pass *)

(** X6: the listing fails with a [KeyError] exactly when one of the three
    keys is absent, and it reads nothing but the values under these keys. *)
Theorem show_entities_KeyError (entities : dict) :
  (show_entities entities = None ↔
     entities !! "ORGs" = None ∨ entities !! "LOCs" = None
     ∨ entities !! "PERs" = None) ∧
  ∀ entities' : dict,
    entities' !! "ORGs" = entities !! "ORGs" →
    entities' !! "LOCs" = entities !! "LOCs" →
    entities' !! "PERs" = entities !! "PERs" →
    show_entities entities' = show_entities entities.
Proof.
  split.
  - unfold show_entities.
    destruct (entities !! "ORGs"), (entities !! "LOCs"),
      (entities !! "PERs"); cbn; naive_solver.
  - intros entities' Ho Hl Hp. unfold show_entities.
    by rewrite Ho, Hl, Hp.
Qed.

#[local] Instance bullet_inj : Inj (=) (=) bullet.
Proof. intros v w. unfold bullet. cbn [String.append]. intros [=]. done. Qed.

Lemma bullet_elem_of_write_bucket heading placeholder values w :
  (∀ v, bullet v ≠ st_write heading) →
  (∀ v, bullet v ≠ st_write placeholder) →
  bullet w ∈ write_bucket heading placeholder values ↔ w ∈ values.
Proof.
  intros Hh Hp. rewrite elem_of_write_bucket. split.
  - intros [[_ Heq]|[_ [Heq|(v & Hv & Heq)]]].
    + by destruct (Hp w).
    + by destruct (Hh w).
    + by apply (inj bullet) in Heq as ->.
  - intros Hw. right. split; [|eauto].
    intros ->. by apply elem_of_nil in Hw.
Qed.

Lemma NoDup_write_bucket heading placeholder values :
  (∀ v, bullet v ≠ st_write heading) →
  NoDup values → NoDup (write_bucket heading placeholder values).
Proof.
  intros Hh Hnd. destruct values as [|v vs]; cbn [write_bucket].
  - apply NoDup_singleton.
  - apply NoDup_cons. split; [|by apply (NoDup_fmap_2 bullet)].
    intros (w & Heq & _)%list_elem_of_fmap. by destruct (Hh w).
Qed.

Lemma write_bucket_placeholder heading placeholder values :
  heading ≠ placeholder →
  head (write_bucket heading placeholder values) = Some (st_write placeholder)
  ↔ values = [].
Proof.
  intros Hne. destruct values; cbn; split; try done. intros [=]. congruence.
Qed.

(** ** The whole run of [main] *)

(** A run on an uploaded file in closed form: the transcript is the text
    the speech model gives for the unread bytes, the spans are what the
    tagger gives for the transcript. *)
Lemma main_uploaded {order : SetOrder}
    (load_whisper_model : () → asr_pipeline)
    (load_ner_model : () → token_classifier) (file : UploadedFile) :
  let transcript := (transcribe_audio load_whisper_model file).1 in
  let spans := load_ner_model () transcript in
  main load_whisper_model load_ner_model (Some file) =
  Some (page transcript
          (listing_of (list_of_set (words_of "ORG" spans))
                      (list_of_set (words_of "LOC" spans))
                      (list_of_set (words_of "PER" spans)))).
Proof.
  cbn zeta. unfold main, extract_entities.
  cbn [transcribe_audio read fst].
  rewrite group_entities_buckets. cbn [mbind option_bind].
  rewrite show_entities_buckets. reflexivity.
Qed.

Lemma bullet_elem_of_listing_of o l p w :
  bullet w ∈ listing_of o l p ↔ w ∈ o ∨ w ∈ l ∨ w ∈ p.
Proof.
  unfold listing_of. rewrite elem_of_cons, !elem_of_app.
  rewrite !bullet_elem_of_write_bucket by done.
  split; [intros [?|?]|]; [done|tauto|tauto].
Qed.

(** X7: in a run on an uploaded file, a text is written as a bullet of
    the listing exactly when the tagger reported, for the transcript, a
    span with that text and one of the three labels. *)
Theorem main_lists_recognized_spans {order : SetOrder}
    (load_whisper_model : () → asr_pipeline)
    (load_ner_model : () → token_classifier) (file : UploadedFile) :
  let transcript := (transcribe_audio load_whisper_model file).1 in
  ∃ listing,
    main load_whisper_model load_ner_model (Some file) =
      Some (page transcript listing) ∧
    ∀ w, bullet w ∈ listing ↔
         ∃ e, e ∈ load_ner_model () transcript ∧
              recognized (entity_group e) ∧ word e = w.
Proof.
  intros transcript. eexists. split; [apply main_uploaded|].
  intros w. rewrite bullet_elem_of_listing_of, !list_of_set_elem.
  rewrite !elem_of_words_of. fold transcript.
  setoid_rewrite recognized_iff. naive_solver.
Qed.

(** X8: whatever the upload widget returns, [main] raises no [KeyError]
    and the page begins with the introduction; nothing follows it exactly
    when no file was uploaded. *)
Theorem main_intro_first {order : SetOrder}
    (load_whisper_model : () → asr_pipeline)
    (load_ner_model : () → token_classifier) (file : option UploadedFile) :
  ∃ rest,
    main load_whisper_model load_ner_model file = Some (main_intro ++ rest) ∧
    (rest = [] ↔ file = None).
Proof.
  destruct file as [file|].
  - eexists. split; [apply main_uploaded|]. split; discriminate.
  - exists []. split; [|done]. cbn [main]. by rewrite app_nil_r.
Qed.

Lemma listing_of_placeholders o l p :
  listing_of o l p = listing_of [] [] [] ↔ o = [] ∧ l = [] ∧ p = [].
Proof.
  split; [|by intros (-> & -> & ->)].
  unfold listing_of. destruct o as [|? ?]; [|discriminate].
  destruct l as [|? ?]; [|discriminate].
  destruct p as [|? ?]; [done|discriminate].
Qed.

(** X9: in a run on an uploaded file, the listing consists of the three
    placeholders exactly when the tagger reported no span with one of the
    three labels (in particular when it reported no span at all). *)
Theorem main_placeholders_only {order : SetOrder}
    (load_whisper_model : () → asr_pipeline)
    (load_ner_model : () → token_classifier) (file : UploadedFile) :
  let transcript := (transcribe_audio load_whisper_model file).1 in
  main load_whisper_model load_ner_model (Some file) =
    Some (page transcript
            [ st_subheader "Extracted Entities:";
              st_write "No organizations found.";
              st_write "No locations found.";
              st_write "No persons found." ]) ↔
  Forall (λ e, ¬ recognized (entity_group e))
         (load_ner_model () transcript).
Proof.
  intros transcript. rewrite main_uploaded. fold transcript.
  rewrite <- group_entities_empty_iff, group_entities_buckets.
  change [ st_subheader "Extracted Entities:";
           st_write "No organizations found.";
           st_write "No locations found.";
           st_write "No persons found." ] with (listing_of [] [] []).
  split.
  - intros Heq%(inj Some). unfold page in Heq.
    do 4 apply app_inv_head in Heq.
    apply listing_of_placeholders in Heq as (-> & -> & ->). reflexivity.
  - intros Heq%(inj Some). apply buckets_inj in Heq as (-> & -> & ->).
    reflexivity.
Qed.

(** X10: the page depends on the speech model only through the text it
    returns and on the tagger only through the label and the text of each
    span: models that agree on these give the same page. *)
Theorem main_reads_text_label_word {order : SetOrder}
    (load1 load2 : () → asr_pipeline) (ner1 ner2 : () → token_classifier)
    (file : option UploadedFile) :
  (∀ audio, text (load1 () audio true) = text (load2 () audio true)) →
  (∀ t, Forall2 same_label_and_word (ner1 () t) (ner2 () t)) →
  main load1 ner1 file = main load2 ner2 file.
Proof.
  intros Htext Hspans. destruct file as [file|]; [|reflexivity].
  rewrite !main_uploaded. cbn [transcribe_audio read fst].
  rewrite Htext.
  by rewrite !(words_of_same_label_and_word _ _ _ (Hspans _)).
Qed.

(** X11: in a run on an uploaded file no block of the listing writes the
    same line twice: each text is listed at most once under a heading. *)
Theorem main_blocks_NoDup {order : SetOrder}
    (load_whisper_model : () → asr_pipeline)
    (load_ner_model : () → token_classifier) (file : UploadedFile) :
  let transcript := (transcribe_audio load_whisper_model file).1 in
  ∃ orgs locs pers,
    extract_entities transcript (load_ner_model ())
      = Some (buckets orgs locs pers) ∧
    main load_whisper_model load_ner_model (Some file)
      = Some (page transcript (listing_of orgs locs pers)) ∧
    NoDup (write_bucket "**Organizations (ORGs):**"
             "No organizations found." orgs) ∧
    NoDup (write_bucket "**Locations (LOCs):**" "No locations found." locs) ∧
    NoDup (write_bucket "**Persons (PERs):**" "No persons found." pers).
Proof.
  intros transcript. do 3 eexists.
  split; [apply group_entities_buckets|].
  split; [apply main_uploaded|].
  repeat split; apply NoDup_write_bucket; (done || apply list_of_set_NoDup).
Qed.

(** ** Further properties of the transcription step *)

(** X12: the transcription step does not rewind the file.  After a call
    the bytes are unchanged and the position is at the end, so a second
    call on the same file hands the model no bytes and leaves the file as
    it is. *)
Theorem transcribe_audio_consumes (load_whisper_model : () → asr_pipeline)
    (file : UploadedFile) :
  let after := (transcribe_audio load_whisper_model file).2 in
  content after = content file ∧
  (length (content file) ≤ position after)%nat ∧
  (transcribe_audio load_whisper_model after).1
    = text (load_whisper_model () [] true) ∧
  (transcribe_audio load_whisper_model after).2 = after.
Proof.
  cbn [transcribe_audio read fst snd content position].
  split; [done|]. split; [lia|]. split.
  - by rewrite drop_ge by lia.
  - f_equal. lia.
Qed.

(** ** The theorems at the example inputs *)

Lemma grouping_sound_witness :
  ∃ e, e ∈ example_spans ∧ entity_group e = "ORG" ∧ word e = "Acme".
Proof.
  destruct (grouping_sound (order:=first_seen_order) example_spans)
    as (d & Hd & Hsound).
  apply (Hsound "ORGs" "ORG" ["Acme"] "Acme").
  - left.
  - assert (Some d = Some (buckets ["Acme"] [] ["Jane"])) as [= ->]
      by (rewrite <- Hd; reflexivity).
    reflexivity.
  - left.
Defined.

Lemma grouping_complete_witness :
  ∃ d ws, group_entities (order:=last_seen_order) example_spans = Some d ∧
          d !! "PERs" = Some ws ∧ "Jane" ∈ ws.
Proof.
  destruct (grouping_complete (order:=last_seen_order) example_spans)
    as (d & Hd & Hcomplete).
  destruct (Hcomplete (span "PER" "Jane") "PERs" "PER") as (ws & Hws & Hin).
  - right. right. left.
  - right. right. left.
  - reflexivity.
  - exists d, ws. repeat split; assumption.
Defined.

Lemma unrecognized_span_dropped_witness :
  group_entities (order:=first_seen_order) example_spans =
  group_entities (order:=first_seen_order)
    [span "ORG" "Acme"; span "ORG" "Acme"; span "PER" "Jane"].
Proof.
  apply (unrecognized_span_dropped (order:=first_seen_order)
           [span "ORG" "Acme"; span "ORG" "Acme"; span "PER" "Jane"] []
           (span "MISC" "Monday")); vm_compute; discriminate.
Defined.

Lemma buckets_NoDup_witness : NoDup ["Acme"].
Proof.
  destruct (buckets_NoDup (order:=first_seen_order) example_spans)
    as (d & Hd & Hnodup).
  apply (Hnodup "ORGs" ["Acme"]).
  assert (Some d = Some (buckets ["Acme"] [] ["Jane"])) as [= ->]
    by (rewrite <- Hd; reflexivity).
  reflexivity.
Defined.

Lemma transcribe_audio_text_witness :
  (transcribe_audio load_without_chunks example_file).1 =
  (transcribe_audio load_with_chunks example_file).1.
Proof.
  apply (transcribe_audio_text load_with_chunks example_file).
  reflexivity.
Defined.

Lemma render_buckets_witness :
  show_entities (buckets ["Acme"] [] ["Jane"]) =
  Some [ st_subheader "Extracted Entities:";
         st_write "**Organizations (ORGs):**"; st_write "- Acme";
         st_write "No locations found.";
         st_write "**Persons (PERs):**"; st_write "- Jane" ].
Proof.
  destruct (render_buckets (order:=first_seen_order)
              load_with_chunks load_example_ner example_file
              "Jane joined Acme on Monday"
              (buckets ["Acme"] [] ["Jane"]) ["Acme"] [] ["Jane"]
              eq_refl eq_refl eq_refl)
    as [(ob & lb & pb & -> & [[Ho _] _] & [_ [Hl _]] & [[Hp _] _] & _) _].
  rewrite (Ho ltac:(discriminate)), (Hl eq_refl), (Hp ltac:(discriminate)).
  reflexivity.
Defined.

Lemma grouping_reads_label_and_word_witness :
  group_entities (order:=first_seen_order) example_spans_scored =
  group_entities (order:=first_seen_order) example_spans.
Proof.
  apply (grouping_reads_label_and_word first_seen_order last_seen_order
           example_spans_scored example_spans).
  repeat constructor.
Defined.

Lemma grouping_Permutation_witness :
  ∃ d1 d2,
    group_entities (order:=first_seen_order) example_spans = Some d1 ∧
    group_entities (order:=first_seen_order) (reverse example_spans)
      = Some d2 ∧
    ∀ k, bucket_set d1 k = bucket_set d2 k.
Proof.
  apply (grouping_Permutation (order:=first_seen_order)
           example_spans (reverse example_spans)).
  symmetry. apply reverse_Permutation.
Defined.

Lemma extract_entities_empty_witness :
  extract_entities (order:=first_seen_order) "On Monday" (load_misc_ner ())
  = Some (buckets [] [] []).
Proof.
  apply (extract_entities_empty (order:=first_seen_order)
           "On Monday" (load_misc_ner ())).
  repeat constructor. rewrite recognized_iff. cbn.
  intros [?|[?|?]]; discriminate.
Defined.

Lemma dedup_loop_any_order_witness :
  ∃ d', dedup_loop (order:=first_seen_order) ["ORGs"; "LOCs"; "PERs"]
          (buckets ["Acme"; "Acme"] [] ["Jane"]) = Some d' ∧
    dom d' = dom (buckets ["Acme"; "Acme"] [] ["Jane"]) ∧
    (∀ k, bucket_set d' k
          = bucket_set (buckets ["Acme"; "Acme"] [] ["Jane"]) k) ∧
    (∀ k ws, d' !! k = Some ws → NoDup ws).
Proof.
  apply (dedup_loop_any_order (order:=first_seen_order)
           (buckets ["Acme"; "Acme"] [] ["Jane"]) ["ORGs"; "LOCs"; "PERs"]).
  vm_compute. reflexivity.
Defined.

Lemma show_entities_KeyError_witness :
  show_entities (<["DATEs" := ["Monday"]]> (buckets ["Acme"] [] ["Jane"]))
  = show_entities (buckets ["Acme"] [] ["Jane"]).
Proof.
  apply (show_entities_KeyError (buckets ["Acme"] [] ["Jane"]));
    reflexivity.
Defined.

Lemma main_lists_recognized_spans_witness :
  ∃ listing,
    main (order:=first_seen_order) load_with_chunks load_example_ner
         (Some example_file)
      = Some (page "Jane joined Acme on Monday" listing) ∧
    bullet "Acme" ∈ listing.
Proof.
  destruct (main_lists_recognized_spans (order:=first_seen_order)
              load_with_chunks load_example_ner example_file)
    as (listing & Hmain & Hbullets).
  exists listing. split; [exact Hmain|].
  apply Hbullets. exists (span "ORG" "Acme").
  split; [left|]. split; [left|reflexivity].
Defined.

Lemma main_placeholders_only_witness :
  main (order:=first_seen_order) load_with_chunks load_misc_ner
       (Some example_file)
  = Some (page "Jane joined Acme on Monday"
            [ st_subheader "Extracted Entities:";
              st_write "No organizations found.";
              st_write "No locations found.";
              st_write "No persons found." ]).
Proof.
  apply (main_placeholders_only (order:=first_seen_order)
           load_with_chunks load_misc_ner example_file).
  repeat constructor. rewrite recognized_iff. cbn.
  intros [?|[?|?]]; discriminate.
Defined.

Lemma main_reads_text_label_word_witness :
  main (order:=first_seen_order) load_with_chunks load_example_ner_scored
       (Some example_file)
  = main (order:=first_seen_order) load_without_chunks load_example_ner
         (Some example_file).
Proof.
  apply (main_reads_text_label_word (order:=first_seen_order)
           load_with_chunks load_without_chunks
           load_example_ner_scored load_example_ner (Some example_file)).
  - intros audio. reflexivity.
  - intros t. repeat constructor.
Defined.
